(** * BluetoothProject: the barrel duel of src/main.cpp

    A shallow embedding of the game logic of [src/main.cpp] (two M5Core2
    devices, one BLE server "Shooter" and one BLE client "Dodger") and the
    properties of its round protocol.

    The global variables of the sketch become one record [Globals]; [loop],
    the BLE callbacks, [resetGame] and the drawing functions become functions
    on it.  What a function hands to the outside (a BLE notification, a BLE
    write, a screen) is returned as a list of [Output]s; the serial log and
    the delays are left out.  A callback runs between two passes of [loop]:
    a device is driven by a list of [Event]s.  The other device and the link
    are not modelled: what they do reaches a device as its events, and a
    game of the two devices is a pair of executions whose messages match.

    The source file holds two revisions of the sketch.  The definitions
    follow the first; the [loop] of the second is [Revision2.loop], and
    [revision2_loop] relates the two.

    C [int] is a 32-bit two's complement integer and [unsigned long] a 32-bit
    unsigned one (ESP32); both are [Z] with the wrap-around written out. *)

From Stdlib Require Import ZArith List String Ascii Bool Lia.
Import ListNotations.
Open Scope Z_scope.

(** * The program *)

(** ** Machine arithmetic *)

Definition INT_MIN : Z := - 2 ^ 31.
Definition INT_MAX : Z := 2 ^ 31 - 1.

(** The value of an [int] expression whose mathematical value is [z]. *)
Definition wrap_int (z : Z) : Z := (z + 2 ^ 31) mod 2 ^ 32 - 2 ^ 31.

(** The value of an [unsigned long] expression whose mathematical value is [z]. *)
Definition wrap_ulong (z : Z) : Z := z mod 2 ^ 32.

(** ** Constants of the sketch *)

Definition MAX_ROUNDS : Z := 5.
Definition NUM_BARRELS : Z := 3.

Definition screenWidth : Z := 320.
Definition screenHeight : Z := 240.
Definition roleButtonY : Z := 80.
Definition roleButtonWidth : Z := screenWidth / 2.
Definition roleButtonHeight : Z := 80.
Definition buttonWidth : Z := 80.
Definition buttonHeight : Z := 50.
Definition buttonSpacing : Z := 20.
Definition buttonY : Z := 180.
Definition button1X : Z := 40.
Definition button2X : Z := button1X + buttonWidth + buttonSpacing.
Definition button3X : Z := button2X + buttonWidth + buttonSpacing.
Definition touchDebounce : Z := 300.

(** ** Enumerations *)

Inductive Role : Type := ROLE_UNDEFINED | ROLE_SHOOTER | ROLE_DODGER.

Inductive ShooterState : Type :=
  SHOOTER_WAIT_DODGER | SHOOTER_WAIT_INPUT | SHOOTER_SHOW_RESULT | SHOOTER_GAME_OVER.

Inductive DodgerState : Type :=
  DODGER_WAIT_INPUT | DODGER_WAIT_SHOT | DODGER_SHOW_RESULT | DODGER_GAME_OVER.

(** ** The C library: [atoi] and [sprintf("%d")]

    [atoi] is the C library's: leading white space, an optional sign, then
    the longest run of decimal digits; anything else (and the terminating
    NUL) ends the number, and no digit at all gives 0.  The library of the
    ESP32 computes it as [(int) strtol(s, NULL, 10)], which saturates. *)

Definition code (c : ascii) : Z := Z.of_N (N_of_ascii c).

Definition isspace (c : ascii) : bool :=
  (code c =? 32) || ((9 <=? code c) && (code c <=? 13)).

Definition isdigit (c : ascii) : bool := (48 <=? code c) && (code c <=? 57).

Fixpoint skip_space (s : string) : string :=
  match s with
  | String c s' => if isspace c then skip_space s' else s
  | EmptyString => s
  end.

Fixpoint digits_value (acc : Z) (s : string) : Z :=
  match s with
  | String c s' => if isdigit c then digits_value (10 * acc + (code c - 48)) s' else acc
  | EmptyString => acc
  end.

Definition saturate (z : Z) : Z := Z.max INT_MIN (Z.min INT_MAX z).

Definition atoi (s : string) : Z :=
  let s := skip_space s in
  let v :=
    match s with
    | String c s' =>
        if (code c =? 45) then - digits_value 0 s'
        else if (code c =? 43) then digits_value 0 s'
        else digits_value 0 s
    | EmptyString => 0
    end in
  saturate v.

Definition digit_char (d : Z) : ascii := ascii_of_N (Z.to_N (48 + d)).

(** The decimal digits of [n >= 0], most significant first; an [int] has at
    most ten of them, which is the fuel [sprintf_d] gives. *)
Fixpoint decimal (fuel : nat) (n : Z) (acc : string) : string :=
  match fuel with
  | O => acc
  | S fuel' =>
      let acc' := String (digit_char (n mod 10)) acc in
      if n / 10 =? 0 then acc' else decimal fuel' (n / 10) acc'
  end.

(** [sprintf(buf, "%d", v)]: the characters written to [buf], without the
    terminating NUL. *)
Definition sprintf_d (v : Z) : string :=
  if v <? 0 then String "-"%char (decimal 10 (- v) EmptyString)
  else decimal 10 v EmptyString.

(** ** The global variables *)

Record Globals : Type := mkGlobals {
  deviceRole : Role;
  shooterState : ShooterState;
  dodgerState : DodgerState;
  roundNumber : Z;
  gameOver : bool;
  roundResultSafe : bool;
  dodgerChoice : Z;
  shooterChoice : Z;
  deviceConnected : bool;
  dodgerInputReceived : bool;
  notificationReceived : bool;
  receivedShooterChoice : Z;
  (** [true] iff [pRemoteCharacteristic != nullptr] *)
  pRemoteCharacteristic : bool;
  lastTouchTime : Z
}.

Definition set_deviceRole (v : Role) (g : Globals) : Globals :=
  mkGlobals v (shooterState g) (dodgerState g) (roundNumber g) (gameOver g)
    (roundResultSafe g) (dodgerChoice g) (shooterChoice g) (deviceConnected g)
    (dodgerInputReceived g) (notificationReceived g) (receivedShooterChoice g)
    (pRemoteCharacteristic g) (lastTouchTime g).

Definition set_shooterState (v : ShooterState) (g : Globals) : Globals :=
  mkGlobals (deviceRole g) v (dodgerState g) (roundNumber g) (gameOver g)
    (roundResultSafe g) (dodgerChoice g) (shooterChoice g) (deviceConnected g)
    (dodgerInputReceived g) (notificationReceived g) (receivedShooterChoice g)
    (pRemoteCharacteristic g) (lastTouchTime g).

Definition set_dodgerState (v : DodgerState) (g : Globals) : Globals :=
  mkGlobals (deviceRole g) (shooterState g) v (roundNumber g) (gameOver g)
    (roundResultSafe g) (dodgerChoice g) (shooterChoice g) (deviceConnected g)
    (dodgerInputReceived g) (notificationReceived g) (receivedShooterChoice g)
    (pRemoteCharacteristic g) (lastTouchTime g).

Definition set_roundNumber (v : Z) (g : Globals) : Globals :=
  mkGlobals (deviceRole g) (shooterState g) (dodgerState g) v (gameOver g)
    (roundResultSafe g) (dodgerChoice g) (shooterChoice g) (deviceConnected g)
    (dodgerInputReceived g) (notificationReceived g) (receivedShooterChoice g)
    (pRemoteCharacteristic g) (lastTouchTime g).

Definition set_gameOver (v : bool) (g : Globals) : Globals :=
  mkGlobals (deviceRole g) (shooterState g) (dodgerState g) (roundNumber g) v
    (roundResultSafe g) (dodgerChoice g) (shooterChoice g) (deviceConnected g)
    (dodgerInputReceived g) (notificationReceived g) (receivedShooterChoice g)
    (pRemoteCharacteristic g) (lastTouchTime g).

Definition set_roundResultSafe (v : bool) (g : Globals) : Globals :=
  mkGlobals (deviceRole g) (shooterState g) (dodgerState g) (roundNumber g) (gameOver g)
    v (dodgerChoice g) (shooterChoice g) (deviceConnected g)
    (dodgerInputReceived g) (notificationReceived g) (receivedShooterChoice g)
    (pRemoteCharacteristic g) (lastTouchTime g).

Definition set_dodgerChoice (v : Z) (g : Globals) : Globals :=
  mkGlobals (deviceRole g) (shooterState g) (dodgerState g) (roundNumber g) (gameOver g)
    (roundResultSafe g) v (shooterChoice g) (deviceConnected g)
    (dodgerInputReceived g) (notificationReceived g) (receivedShooterChoice g)
    (pRemoteCharacteristic g) (lastTouchTime g).

Definition set_shooterChoice (v : Z) (g : Globals) : Globals :=
  mkGlobals (deviceRole g) (shooterState g) (dodgerState g) (roundNumber g) (gameOver g)
    (roundResultSafe g) (dodgerChoice g) v (deviceConnected g)
    (dodgerInputReceived g) (notificationReceived g) (receivedShooterChoice g)
    (pRemoteCharacteristic g) (lastTouchTime g).

Definition set_deviceConnected (v : bool) (g : Globals) : Globals :=
  mkGlobals (deviceRole g) (shooterState g) (dodgerState g) (roundNumber g) (gameOver g)
    (roundResultSafe g) (dodgerChoice g) (shooterChoice g) v
    (dodgerInputReceived g) (notificationReceived g) (receivedShooterChoice g)
    (pRemoteCharacteristic g) (lastTouchTime g).

Definition set_dodgerInputReceived (v : bool) (g : Globals) : Globals :=
  mkGlobals (deviceRole g) (shooterState g) (dodgerState g) (roundNumber g) (gameOver g)
    (roundResultSafe g) (dodgerChoice g) (shooterChoice g) (deviceConnected g)
    v (notificationReceived g) (receivedShooterChoice g)
    (pRemoteCharacteristic g) (lastTouchTime g).

Definition set_notificationReceived (v : bool) (g : Globals) : Globals :=
  mkGlobals (deviceRole g) (shooterState g) (dodgerState g) (roundNumber g) (gameOver g)
    (roundResultSafe g) (dodgerChoice g) (shooterChoice g) (deviceConnected g)
    (dodgerInputReceived g) v (receivedShooterChoice g)
    (pRemoteCharacteristic g) (lastTouchTime g).

Definition set_receivedShooterChoice (v : Z) (g : Globals) : Globals :=
  mkGlobals (deviceRole g) (shooterState g) (dodgerState g) (roundNumber g) (gameOver g)
    (roundResultSafe g) (dodgerChoice g) (shooterChoice g) (deviceConnected g)
    (dodgerInputReceived g) (notificationReceived g) v
    (pRemoteCharacteristic g) (lastTouchTime g).

Definition set_pRemoteCharacteristic (v : bool) (g : Globals) : Globals :=
  mkGlobals (deviceRole g) (shooterState g) (dodgerState g) (roundNumber g) (gameOver g)
    (roundResultSafe g) (dodgerChoice g) (shooterChoice g) (deviceConnected g)
    (dodgerInputReceived g) (notificationReceived g) (receivedShooterChoice g)
    v (lastTouchTime g).

Definition set_lastTouchTime (v : Z) (g : Globals) : Globals :=
  mkGlobals (deviceRole g) (shooterState g) (dodgerState g) (roundNumber g) (gameOver g)
    (roundResultSafe g) (dodgerChoice g) (shooterChoice g) (deviceConnected g)
    (dodgerInputReceived g) (notificationReceived g) (receivedShooterChoice g)
    (pRemoteCharacteristic g) v.

(** The values the globals are declared with. *)
Definition initial_globals : Globals :=
  {| deviceRole := ROLE_UNDEFINED;
     shooterState := SHOOTER_WAIT_DODGER;
     dodgerState := DODGER_WAIT_INPUT;
     roundNumber := 1;
     gameOver := false;
     roundResultSafe := false;
     dodgerChoice := 0;
     shooterChoice := 0;
     deviceConnected := false;
     dodgerInputReceived := false;
     notificationReceived := false;
     receivedShooterChoice := 0;
     pRemoteCharacteristic := false;
     lastTouchTime := 0 |}.

(** ** What a device hands to the outside *)

Inductive Output : Type :=
  (** [pCharacteristic->setValue(buf); pCharacteristic->notify()] *)
| Notify (value : string)
  (** [pRemoteCharacteristic->writeValue(std::string(buf))] *)
| WriteValue (value : string)
  (** [drawGameScreen()]: the round line and the instruction line, if any *)
| GameScreen (roundStr : string) (instruction : option string)
  (** [drawGameOverScreen()]: the result line *)
| GameOverScreen (result : string).

(** ** The BLE callbacks *)

(** [MyServerCallbacks::onConnect] *)
Definition onConnect (g : Globals) : Globals := set_deviceConnected true g.

(** [MyServerCallbacks::onDisconnect] *)
Definition onDisconnect (g : Globals) : Globals := set_deviceConnected false g.

(** [MyCharacteristicCallbacks::onWrite]; [rxValue] is the value written to
    the characteristic. *)
Definition onWrite (rxValue : string) (g : Globals) : Globals :=
  if 0 <? Z.of_nat (String.length rxValue) then
    set_dodgerInputReceived true (set_dodgerChoice (atoi rxValue) g)
  else g.

(** [notifyCallback]; [pData] is what [atoi] can read at the pointer, and
    [length] the length the BLE stack reports. *)
Definition notifyCallback (pData : string) (length : Z) (g : Globals) : Globals :=
  if 0 <? length then
    set_notificationReceived true (set_receivedShooterChoice (atoi pData) g)
  else g.

(** ** [resetGame] and the screens *)

Definition resetGame (g : Globals) : Globals :=
  let g := set_roundNumber 1 g in
  let g := set_gameOver false g in
  let g := set_roundResultSafe false g in
  let g := set_dodgerChoice 0 g in
  let g := set_shooterChoice 0 g in
  let g := set_dodgerInputReceived false g in
  let g := set_notificationReceived false g in
  set_receivedShooterChoice 0 g.

Definition drawGameScreen (g : Globals) : Output :=
  let roundStr :=
    ("Round: " ++ sprintf_d (roundNumber g) ++ " / " ++ sprintf_d MAX_ROUNDS)%string in
  let instruction :=
    match deviceRole g with
    | ROLE_SHOOTER =>
        match shooterState g with
        | SHOOTER_WAIT_DODGER => Some "Waiting for dodger..."%string
        | SHOOTER_WAIT_INPUT => Some "Select barrel to shoot"%string
        | SHOOTER_SHOW_RESULT =>
            if roundResultSafe g then Some "Round Safe"%string
            else Some "Dodger Hit!"%string
        | SHOOTER_GAME_OVER => None
        end
    | _ =>
        match dodgerState g with
        | DODGER_WAIT_INPUT => Some "Select barrel to hide"%string
        | DODGER_WAIT_SHOT => Some "Waiting for shot..."%string
        | DODGER_SHOW_RESULT =>
            if roundResultSafe g then Some "Safe!"%string
            else Some "You Were Hit!"%string
        | DODGER_GAME_OVER => None
        end
    end in
  GameScreen roundStr instruction.

(** The result line of [drawGameOverScreen]. *)
Definition gameOverResult (g : Globals) : string :=
  match deviceRole g with
  | ROLE_SHOOTER => if negb (roundResultSafe g) then "You Win!" else "You Lose!"
  | _ => if negb (roundResultSafe g) then "You Lose!" else "You Win!"
  end%string.

Definition drawGameOverScreen (g : Globals) : Output :=
  GameOverScreen (gameOverResult g).

(** ** [loop] *)

(** [M5.Touch.getDetail(0)], as far as [loop] reads it. *)
Record TouchDetail : Type := mkTouch {
  x : Z;
  y : Z;
  wasClicked : bool
}.

(** What one pass of [loop] reads from the hardware: the touch, if
    [M5.Touch.getCount() > 0], and the two readings of [millis()]. *)
Record LoopInput : Type := mkInput {
  touch : option TouchDetail;
  millis_test : Z;
  millis_store : Z
}.

(** The second revision of the sketch names the test that the first one
    writes out at each button. *)
Definition pointInRect (px py rx ry rw rh : Z) : bool :=
  (rx <=? px) && (px <=? rx + rw) && (ry <=? py) && (py <=? ry + rh).

(** The three-way [if / else if / else if] over the barrel buttons: the new
    value of the choice variable, which keeps [choice] when no button is hit. *)
Definition barrelChoice (choice : Z) (detail : TouchDetail) : Z :=
  if pointInRect (x detail) (y detail) button1X buttonY buttonWidth buttonHeight then 1
  else if pointInRect (x detail) (y detail) button2X buttonY buttonWidth buttonHeight then 2
  else if pointInRect (x detail) (y detail) button3X buttonY buttonWidth buttonHeight then 3
  else choice.

(** The test of the restart button. *)
Definition restartHit (detail : TouchDetail) : bool :=
  (screenWidth / 2 - 60 <? x detail) && (x detail <? screenWidth / 2 + 60)
  && (120 <? y detail) && (y detail <? 160).

(** [millis() - lastTouchTime < touchDebounce], in [unsigned long]. *)
Definition debounced (inp : LoopInput) (g : Globals) : bool :=
  wrap_ulong (millis_test inp - lastTouchTime g) <? touchDebounce.

Definition loop (inp : LoopInput) (g : Globals) : Globals * list Output :=
  match deviceRole g with
  | ROLE_SHOOTER =>
      match shooterState g with
      | SHOOTER_WAIT_DODGER =>
          let scr := drawGameScreen g in
          if dodgerInputReceived g then
            (set_dodgerInputReceived false (set_shooterState SHOOTER_WAIT_INPUT g), [scr])
          else (g, [scr])
      | SHOOTER_WAIT_INPUT =>
          let scr := drawGameScreen g in
          match touch inp with
          | Some detail =>
              if wasClicked detail then
                if debounced inp g then (g, [scr])
                else
                  let g := set_lastTouchTime (wrap_ulong (millis_store inp)) g in
                  let g := set_shooterChoice (barrelChoice (shooterChoice g) detail) g in
                  if (1 <=? shooterChoice g) && (shooterChoice g <=? 3) then
                    let g :=
                      if negb (shooterChoice g =? dodgerChoice g)
                      then set_gameOver true (set_roundResultSafe false g)
                      else set_roundResultSafe true g in
                    let sent :=
                      if deviceConnected g then [Notify (sprintf_d (shooterChoice g))]
                      else [] in
                    (set_shooterState SHOOTER_SHOW_RESULT g, scr :: sent)
                  else (g, [scr])
              else (g, [scr])
          | None => (g, [scr])
          end
      | SHOOTER_SHOW_RESULT =>
          let scr := drawGameScreen g in
          if gameOver g || ((MAX_ROUNDS <=? roundNumber g) && roundResultSafe g) then
            (set_shooterState SHOOTER_GAME_OVER g, [scr])
          else
            (set_shooterState SHOOTER_WAIT_DODGER
               (set_roundNumber (wrap_int (roundNumber g + 1)) g), [scr])
      | SHOOTER_GAME_OVER =>
          let scr := drawGameOverScreen g in
          match touch inp with
          | Some detail =>
              if wasClicked detail then
                if debounced inp g then (g, [scr])
                else
                  let g := set_lastTouchTime (wrap_ulong (millis_store inp)) g in
                  if restartHit detail then
                    (set_shooterState SHOOTER_WAIT_DODGER (resetGame g), [scr])
                  else (g, [scr])
              else (g, [scr])
          | None => (g, [scr])
          end
      end
  | ROLE_DODGER =>
      match dodgerState g with
      | DODGER_WAIT_INPUT =>
          let scr := drawGameScreen g in
          match touch inp with
          | Some detail =>
              if wasClicked detail then
                if debounced inp g then (g, [scr])
                else
                  let g := set_lastTouchTime (wrap_ulong (millis_store inp)) g in
                  let g := set_dodgerChoice (barrelChoice (dodgerChoice g) detail) g in
                  if (1 <=? dodgerChoice g) && (dodgerChoice g <=? 3) then
                    let sent :=
                      if pRemoteCharacteristic g
                      then [WriteValue (sprintf_d (dodgerChoice g))]
                      else [] in
                    (set_dodgerState DODGER_WAIT_SHOT g, scr :: sent)
                  else (g, [scr])
              else (g, [scr])
          | None => (g, [scr])
          end
      | DODGER_WAIT_SHOT =>
          let scr := drawGameScreen g in
          if notificationReceived g then
            let g := set_notificationReceived false g in
            let g :=
              if negb (receivedShooterChoice g =? dodgerChoice g)
              then set_gameOver true (set_roundResultSafe false g)
              else set_roundResultSafe true g in
            (set_dodgerState DODGER_SHOW_RESULT g, [scr])
          else (g, [scr])
      | DODGER_SHOW_RESULT =>
          let scr := drawGameScreen g in
          if gameOver g || ((MAX_ROUNDS <=? roundNumber g) && roundResultSafe g) then
            (set_dodgerState DODGER_GAME_OVER g, [scr])
          else
            (set_dodgerState DODGER_WAIT_INPUT
               (set_roundNumber (wrap_int (roundNumber g + 1)) g), [scr])
      | DODGER_GAME_OVER =>
          let scr := drawGameOverScreen g in
          match touch inp with
          | Some detail =>
              if wasClicked detail then
                if debounced inp g then (g, [scr])
                else
                  let g := set_lastTouchTime (wrap_ulong (millis_store inp)) g in
                  if restartHit detail then
                    (set_dodgerState DODGER_WAIT_INPUT (resetGame g), [scr])
                  else (g, [scr])
              else (g, [scr])
          | None => (g, [scr])
          end
      end
  | ROLE_UNDEFINED => (g, [])
  end.

(** ** [setup]

    [setup] leaves its [while] loop with a role selected, [ROLE_SHOOTER] or
    [ROLE_DODGER].  What the BLE set-up and the one-second delay leave behind
    is a parameter: whether a client connected meanwhile ([onConnect]),
    whether [setupBLE_Client] found the characteristic, and the time of the
    selecting touch. *)
Definition setup (role : Role) (connected found : bool) (touchTime : Z) : Globals :=
  let g := set_lastTouchTime (wrap_ulong touchTime) (set_deviceRole role initial_globals) in
  let g :=
    match role with
    | ROLE_SHOOTER => set_shooterState SHOOTER_WAIT_DODGER (set_deviceConnected connected g)
    | _ => set_dodgerState DODGER_WAIT_INPUT (set_pRemoteCharacteristic found g)
    end in
  resetGame g.

(** ** The second revision of the sketch

    [main.cpp] comes in two revisions.  The second one adds logging, does
    not ask [wasClicked], tests every button with [pointInRect], the restart
    button included, and writes the debounce test as a guard.  Its [loop] is
    embedded here as it is written and related to the first one. *)

Module Revision2.

Definition loop (inp : LoopInput) (g : Globals) : Globals * list Output :=
  match deviceRole g with
  | ROLE_SHOOTER =>
      match shooterState g with
      | SHOOTER_WAIT_DODGER =>
          let scr := drawGameScreen g in
          if dodgerInputReceived g then
            (set_dodgerInputReceived false (set_shooterState SHOOTER_WAIT_INPUT g), [scr])
          else (g, [scr])
      | SHOOTER_WAIT_INPUT =>
          let scr := drawGameScreen g in
          match touch inp with
          | Some pos =>
              if touchDebounce <=? wrap_ulong (millis_test inp - lastTouchTime g) then
                let g := set_lastTouchTime (wrap_ulong (millis_store inp)) g in
                let g := set_shooterChoice (barrelChoice (shooterChoice g) pos) g in
                if (1 <=? shooterChoice g) && (shooterChoice g <=? 3) then
                  let g :=
                    if negb (shooterChoice g =? dodgerChoice g)
                    then set_gameOver true (set_roundResultSafe false g)
                    else set_roundResultSafe true g in
                  let sent :=
                    if deviceConnected g then [Notify (sprintf_d (shooterChoice g))]
                    else [] in
                  (set_shooterState SHOOTER_SHOW_RESULT g, scr :: sent)
                else (g, [scr])
              else (g, [scr])
          | None => (g, [scr])
          end
      | SHOOTER_SHOW_RESULT =>
          let scr := drawGameScreen g in
          if gameOver g || ((MAX_ROUNDS <=? roundNumber g) && roundResultSafe g) then
            (set_shooterState SHOOTER_GAME_OVER g, [scr])
          else
            (set_shooterState SHOOTER_WAIT_DODGER
               (set_roundNumber (wrap_int (roundNumber g + 1)) g), [scr])
      | SHOOTER_GAME_OVER =>
          let scr := drawGameOverScreen g in
          match touch inp with
          | Some pos =>
              if touchDebounce <=? wrap_ulong (millis_test inp - lastTouchTime g) then
                let g := set_lastTouchTime (wrap_ulong (millis_store inp)) g in
                if pointInRect (x pos) (y pos) (screenWidth / 2 - 60) 120 120 40 then
                  (set_shooterState SHOOTER_WAIT_DODGER (resetGame g), [scr])
                else (g, [scr])
              else (g, [scr])
          | None => (g, [scr])
          end
      end
  | ROLE_DODGER =>
      match dodgerState g with
      | DODGER_WAIT_INPUT =>
          let scr := drawGameScreen g in
          match touch inp with
          | Some pos =>
              if touchDebounce <=? wrap_ulong (millis_test inp - lastTouchTime g) then
                let g := set_lastTouchTime (wrap_ulong (millis_store inp)) g in
                let g := set_dodgerChoice (barrelChoice (dodgerChoice g) pos) g in
                if (1 <=? dodgerChoice g) && (dodgerChoice g <=? 3) then
                  let sent :=
                    if pRemoteCharacteristic g
                    then [WriteValue (sprintf_d (dodgerChoice g))]
                    else [] in
                  (set_dodgerState DODGER_WAIT_SHOT g, scr :: sent)
                else (g, [scr])
              else (g, [scr])
          | None => (g, [scr])
          end
      | DODGER_WAIT_SHOT =>
          let scr := drawGameScreen g in
          if notificationReceived g then
            let g := set_notificationReceived false g in
            let g :=
              if negb (receivedShooterChoice g =? dodgerChoice g)
              then set_gameOver true (set_roundResultSafe false g)
              else set_roundResultSafe true g in
            (set_dodgerState DODGER_SHOW_RESULT g, [scr])
          else (g, [scr])
      | DODGER_SHOW_RESULT =>
          let scr := drawGameScreen g in
          if gameOver g || ((MAX_ROUNDS <=? roundNumber g) && roundResultSafe g) then
            (set_dodgerState DODGER_GAME_OVER g, [scr])
          else
            (set_dodgerState DODGER_WAIT_INPUT
               (set_roundNumber (wrap_int (roundNumber g + 1)) g), [scr])
      | DODGER_GAME_OVER =>
          let scr := drawGameOverScreen g in
          match touch inp with
          | Some pos =>
              if touchDebounce <=? wrap_ulong (millis_test inp - lastTouchTime g) then
                let g := set_lastTouchTime (wrap_ulong (millis_store inp)) g in
                if pointInRect (x pos) (y pos) (screenWidth / 2 - 60) 120 120 40 then
                  (set_dodgerState DODGER_WAIT_INPUT (resetGame g), [scr])
                else (g, [scr])
              else (g, [scr])
          | None => (g, [scr])
          end
      end
  | ROLE_UNDEFINED => (g, [])
  end.

End Revision2.

(** The input of a pass whose touch, if any, counts as a click. *)
Definition clicked (inp : LoopInput) : LoopInput :=
  mkInput (option_map (fun pos => mkTouch (x pos) (y pos) true) (touch inp))
    (millis_test inp) (millis_store inp).

(** The touch lies on the rim of the restart button, where the inclusive
    test of the second revision and the strict test of the first differ. *)
Definition onRestartRim (inp : LoopInput) : bool :=
  match touch inp with
  | Some pos =>
      negb (Bool.eqb (pointInRect (x pos) (y pos) (screenWidth / 2 - 60) 120 120 40)
                     (restartHit pos))
  | None => false
  end.

(** ** Executions of one device *)

Inductive Event : Type :=
| Loop (inp : LoopInput)
| OnConnect
| OnDisconnect
| OnWrite (rxValue : string)
| NotifyCallback (pData : string) (length : Z).

Definition step (g : Globals) (e : Event) : Globals * list Output :=
  match e with
  | Loop inp => loop inp g
  | OnConnect => (onConnect g, [])
  | OnDisconnect => (onDisconnect g, [])
  | OnWrite rxValue => (onWrite rxValue g, [])
  | NotifyCallback pData length => (notifyCallback pData length g, [])
  end.

(** The globals after the events [es], and everything handed out on the way. *)
Fixpoint run (g : Globals) (es : list Event) : Globals * list Output :=
  match es with
  | [] => (g, [])
  | e :: es' =>
      let (g1, out1) := step g e in
      let (g2, out2) := run g1 es' in
      (g2, out1 ++ out2)
  end.

(** A state of a device some time after [setup]. *)
Definition reachable (g : Globals) : Prop :=
  exists role connected found touchTime es,
    role <> ROLE_UNDEFINED /\
    g = fst (run (setup role connected found touchTime) es).

(** * The words of the specification *)

(** The verdict of section 4.3 of the specification, written from its
    words: a hit is bad for the hider and good for the attacker. *)
Definition spec_verdict (role : Role) (eliminated : bool) : string :=
  match role with
  | ROLE_SHOOTER => if eliminated then "You Win!" else "You Lose!"
  | _ => if eliminated then "You Lose!" else "You Win!"
  end.




(** * Predicates of the statements *)

(** ** Where a state machine stands *)

(** The role's state machine is in its game-over state. *)
Definition atGameOver (g : Globals) : bool :=
  match deviceRole g with
  | ROLE_SHOOTER => match shooterState g with SHOOTER_GAME_OVER => true | _ => false end
  | ROLE_DODGER => match dodgerState g with DODGER_GAME_OVER => true | _ => false end
  | ROLE_UNDEFINED => false
  end.

(** The role's state machine shows the result of a round. *)
Definition atShowResult (g : Globals) : bool :=
  match deviceRole g with
  | ROLE_SHOOTER => match shooterState g with SHOOTER_SHOW_RESULT => true | _ => false end
  | ROLE_DODGER => match dodgerState g with DODGER_SHOW_RESULT => true | _ => false end
  | ROLE_UNDEFINED => false
  end.

(** The role's state machine waits for the first event of a round. *)
Definition atRoundStart (g : Globals) : bool :=
  match deviceRole g with
  | ROLE_SHOOTER => match shooterState g with SHOOTER_WAIT_DODGER => true | _ => false end
  | ROLE_DODGER => match dodgerState g with DODGER_WAIT_INPUT => true | _ => false end
  | ROLE_UNDEFINED => false
  end.

(** The role's state machine waits for the local selection. *)
Definition atOwnChoice (g : Globals) : bool :=
  match deviceRole g with
  | ROLE_SHOOTER => match shooterState g with SHOOTER_WAIT_INPUT => true | _ => false end
  | ROLE_DODGER => match dodgerState g with DODGER_WAIT_INPUT => true | _ => false end
  | ROLE_UNDEFINED => false
  end.

(** The role's own choice variable. *)
Definition ownChoice (g : Globals) : Z :=
  match deviceRole g with
  | ROLE_SHOOTER => shooterChoice g
  | _ => dodgerChoice g
  end.

(** The test of [loop] at the result screen. *)
Definition sessionOver (g : Globals) : bool :=
  gameOver g || ((MAX_ROUNDS <=? roundNumber g) && roundResultSafe g).

(** The event is a pass of [loop] that calls [resetGame]: the device is at
    its game-over screen and a click outside the debounce interval lands on
    the restart button. *)
Definition restarts (g : Globals) (e : Event) : bool :=
  match e with
  | Loop inp =>
      atGameOver g &&
      match touch inp with
      | Some detail => wasClicked detail && negb (debounced inp g) && restartHit detail
      | None => false
      end
  | _ => false
  end.

(** The touch hits none of the three barrel buttons. *)
Definition missesBarrels (detail : TouchDetail) : bool :=
  negb (pointInRect (x detail) (y detail) button1X buttonY buttonWidth buttonHeight)
  && negb (pointInRect (x detail) (y detail) button2X buttonY buttonWidth buttonHeight)
  && negb (pointInRect (x detail) (y detail) button3X buttonY buttonWidth buttonHeight).

(** The two globals agree on everything but the debounce time stamp. *)
Definition sameGame (g g' : Globals) : Prop :=
  set_lastTouchTime 0 g' = set_lastTouchTime 0 g.

(** ** What is handed to the BLE stack *)

(** What a pass of [loop] hands to the BLE stack. *)
Definition isSend (o : Output) : bool :=
  match o with
  | Notify _ | WriteValue _ => true
  | GameScreen _ _ | GameOverScreen _ => false
  end.

Definition sends (out : list Output) : list Output := filter isSend out.
Definition screens (out : list Output) : list Output :=
  filter (fun o => negb (isSend o)) out.

(** The values notified, resp. written, in a list of outputs. *)
Definition notified (out : list Output) : list string :=
  flat_map (fun o => match o with Notify v => [v] | _ => [] end) out.

Definition written (out : list Output) : list string :=
  flat_map (fun o => match o with WriteValue v => [v] | _ => [] end) out.

(** The role's send can reach a peer: the shooter's server has a client, the
    dodger's client holds the remote characteristic. *)
Definition set_peer (b : bool) (g : Globals) : Globals :=
  match deviceRole g with
  | ROLE_SHOOTER => set_deviceConnected b g
  | _ => set_pRemoteCharacteristic b g
  end.

(** ** The invariant of the round state machines

    While a round is being played the game is not over and between 1 and
    [MAX_ROUNDS] rounds have been started; from the moment a round is
    resolved [gameOver] is the negation of [roundResultSafe]. *)

Definition inv (g : Globals) : Prop :=
  1 <= roundNumber g <= MAX_ROUNDS /\
  match deviceRole g with
  | ROLE_SHOOTER =>
      match shooterState g with
      | SHOOTER_WAIT_DODGER | SHOOTER_WAIT_INPUT => gameOver g = false
      | SHOOTER_SHOW_RESULT | SHOOTER_GAME_OVER => gameOver g = negb (roundResultSafe g)
      end
  | ROLE_DODGER =>
      match dodgerState g with
      | DODGER_WAIT_INPUT | DODGER_WAIT_SHOT => gameOver g = false
      | DODGER_SHOW_RESULT | DODGER_GAME_OVER => gameOver g = negb (roundResultSafe g)
      end
  | ROLE_UNDEFINED => True
  end.

(** ** The order of a round *)

(** The event is a pass of [loop] that resolves a round: it brings the
    role's state machine to its result screen.  On the shooter this is the
    pass that takes the shooter's own selection, on the dodger the pass that
    reads the shooter's choice. *)
Definition resolvesRound (g : Globals) (e : Event) : bool :=
  match e with
  | Loop inp => negb (atShowResult g) && atShowResult (fst (loop inp g))
  | _ => false
  end.

(** The event hands a choice of the dodger to the shooter: [onWrite] with a
    value that is not empty. *)
Definition deliversChoice (g : Globals) (e : Event) : bool :=
  match e with
  | OnWrite rxValue => 0 <? Z.of_nat (String.length rxValue)
  | _ => false
  end.

(** The event is a pass of [loop] that brings the dodger to
    [DODGER_WAIT_SHOT], the state that reads the shooter's choice. *)
Definition entersWaitShot (g : Globals) (e : Event) : bool :=
  match e with
  | Loop inp =>
      match dodgerState g, dodgerState (fst (loop inp g)) with
      | DODGER_WAIT_SHOT, _ => false
      | _, DODGER_WAIT_SHOT => true
      | _, _ => false
      end
  | _ => false
  end.

(** How many events of the execution [es] from [g] satisfy [p]. *)
Fixpoint countEvents (p : Globals -> Event -> bool) (g : Globals) (es : list Event) : nat :=
  match es with
  | [] => O
  | e :: es' => ((if p g e then 1 else 0) + countEvents p (fst (step g e)) es')%nat
  end.

(** The choices the dodger holds on entering [DODGER_WAIT_SHOT], in the
    order of the execution [es] from [g]. *)
Fixpoint choicesCommitted (g : Globals) (es : list Event) : list Z :=
  match es with
  | [] => []
  | e :: es' =>
      (if entersWaitShot g e then [dodgerChoice (fst (step g e))] else [])
      ++ choicesCommitted (fst (step g e)) es'
  end.

(** The choices of the dodger that the shooter has received and not yet
    answered: one while it asks for its own selection, one while
    [dodgerInputReceived] is raised. *)
Definition shooterCredit (g : Globals) : nat :=
  ((match shooterState g with SHOOTER_WAIT_INPUT => 1 | _ => 0 end)
   + (if dodgerInputReceived g then 1 else 0))%nat.

(** The choices the dodger has committed and not yet seen answered. *)
Definition dodgerCredit (g : Globals) : nat :=
  match dodgerState g with DODGER_WAIT_SHOT => 1%nat | _ => 0%nat end.

(** ** Sample inputs *)

(** A pass of [loop] at time [t] without a touch. *)
Definition idle (t : Z) : Event := Loop (mkInput None t t).

(** A pass of [loop] at time [t] with a click at [(px, py)]. *)
Definition tap (px py t : Z) : Event :=
  Loop (mkInput (Some (mkTouch px py true)) t t).

(** A shooter whose first round went well for the dodger, showing the result. *)
Definition shooter_round1_shown : Globals :=
  fst (run (setup ROLE_SHOOTER true false 0)
         [OnWrite "2"; idle 100; tap 150 200 1000]).

(** A shooter that has just shot the dodger, at the game-over screen. *)
Definition shooter_game_over : Globals :=
  fst (run (setup ROLE_SHOOTER true false 0)
         [OnWrite "2"; idle 100; tap 50 200 1000; idle 2600]).

(** The dodger of the same game. *)
Definition dodger_game_over : Globals :=
  fst (run (setup ROLE_DODGER false true 0)
         [tap 150 200 900; NotifyCallback "1" 1; idle 1100; idle 2700]).

(** One round on the shooter, from time [t]: the dodger's choice of barrel 2
    arrives, the shooter is asked, shoots at barrel 2 and shows the result. *)
Definition shooter_round (t : Z) : list Event :=
  [OnWrite "2"; idle (t + 100); tap 150 200 (t + 1000); idle (t + 2600)].

(** The same round on the dodger: it hides in barrel 2, the notification
    comes in with [atoi] reading [pData] at the pointer and a reported
    length of one byte, the round is resolved and its result shown. *)
Definition dodger_round (t : Z) (pData : string) : list Event :=
  [tap 150 200 (t + 900); NotifyCallback pData 1; idle (t + 1100); idle (t + 2700)].

(** A game of five such rounds. *)
Definition shooter_five_rounds : list Event :=
  flat_map shooter_round [0; 3000; 6000; 9000; 12000].

(** The dodger's side of that game; [last] is what [atoi] can read at the
    pointer of the fifth notification. *)
Definition dodger_five_rounds (last : string) : list Event :=
  flat_map (fun t => dodger_round t "2") [0; 3000; 6000; 9000]
  ++ dodger_round 12000 last.

(** * Properties *)

(** ** Case analysis of one pass of [loop] *)

Ltac break_if :=
  match goal with
  | |- context [if ?b then _ else _] => destruct b eqn:?
  | |- context [match ?o with Some _ => _ | None => _ end] => destruct o eqn:?
  end.

Ltac loop_cases g :=
  let role := fresh "role" in
  let sst := fresh "sst" in
  let dst := fresh "dst" in
  destruct g as [role sst dst ? ? ? ? ? ? ? ? ? ? ?];
  unfold loop; cbn [deviceRole shooterState dodgerState];
  destruct role; [ | destruct sst | destruct dst ];
  repeat break_if; cbn in *.

(** ** The round state machines keep their invariant *)

Lemma wrap_int_small (z : Z) : INT_MIN <= z <= INT_MAX -> wrap_int z = z.
Proof.
  unfold wrap_int, INT_MIN, INT_MAX. intros H.
  rewrite Z.mod_small; lia.
Qed.

Lemma inv_setup role connected found touchTime :
  inv (setup role connected found touchTime).
Proof.
  unfold inv, setup, MAX_ROUNDS. destruct role; cbn; split; (lia || reflexivity).
Qed.

Lemma next_round_in_range (rn : Z) (safe : bool) :
  negb safe || (MAX_ROUNDS <=? rn) && safe = false ->
  1 <= rn <= MAX_ROUNDS ->
  safe = true /\ rn < MAX_ROUNDS /\ wrap_int (rn + 1) = rn + 1.
Proof.
  unfold MAX_ROUNDS. intros H Hr. destruct safe; cbn in H; [ | discriminate ].
  rewrite andb_true_r in H. apply Z.leb_gt in H.
  repeat split; [ lia | ].
  apply wrap_int_small. unfold INT_MIN, INT_MAX. lia.
Qed.

Lemma inv_loop inp g : inv g -> inv (fst (loop inp g)).
Proof.
  unfold inv. loop_cases g; intros [Hr Hg]; subst.
  all: try (split; [ unfold MAX_ROUNDS in *; lia | solve [ assumption | reflexivity ] ]).
  all: try discriminate.
  all: match goal with
       | H : _ || _ = false |- _ =>
           destruct (next_round_in_range _ _ H Hr) as (-> & Hlt & ->)
       end;
    split; [ unfold MAX_ROUNDS in *; lia | reflexivity ].
Qed.

Lemma inv_step g e : inv g -> inv (fst (step g e)).
Proof.
  destruct e; cbn [step fst]; [ apply inv_loop | | | | ];
    unfold inv, onConnect, onDisconnect, onWrite, notifyCallback;
    repeat break_if; cbn; trivial.
Qed.

Lemma run_app g es1 es2 :
  run g (es1 ++ es2) =
  (fst (run (fst (run g es1)) es2), snd (run g es1) ++ snd (run (fst (run g es1)) es2)).
Proof.
  revert g. induction es1 as [ | e es1 IH]; intros g; cbn.
  - destruct (run g es2); reflexivity.
  - destruct (step g e) as [g1 out1]. rewrite IH.
    destruct (run g1 es1) as [g2 out2]. cbn.
    destruct (run g2 es2) as [g3 out3]. cbn. now rewrite app_assoc.
Qed.

Lemma inv_run es : forall g, inv g -> inv (fst (run g es)).
Proof.
  induction es as [ | e es IH]; intros g Hg; cbn; [ exact Hg | ].
  pose proof (inv_step g e Hg) as H1.
  destruct (step g e) as [g1 out1]. cbn in H1.
  specialize (IH g1 H1). destruct (run g1 es) as [g2 out2]. exact IH.
Qed.

Lemma reachable_inv g : reachable g -> inv g.
Proof.
  intros (role & connected & found & touchTime & es & _ & ->).
  apply inv_run, inv_setup.
Qed.

Lemma reachable_role g : reachable g -> deviceRole g <> ROLE_UNDEFINED.
Proof.
  intros (role & connected & found & touchTime & es & Hrole & ->).
  assert (Hs : deviceRole (setup role connected found touchTime) = role)
    by (destruct role; reflexivity).
  revert Hs. generalize (setup role connected found touchTime).
  induction es as [ | e es IH]; intros g Hs; cbn; [ congruence | ].
  assert (H1 : deviceRole (fst (step g e)) = role).
  { rewrite <- Hs. destruct e; cbn [step fst];
      unfold onConnect, onDisconnect, onWrite, notifyCallback;
      [ loop_cases g | | | | ]; repeat break_if; reflexivity. }
  destruct (step g e) as [g1 out1]. cbn in H1.
  specialize (IH g1 H1). destruct (run g1 es) as [g2 out2]. exact IH.
Qed.

Lemma reachable_step g e : reachable g -> reachable (fst (step g e)).
Proof.
  intros (role & connected & found & touchTime & es & Hrole & ->).
  exists role, connected, found, touchTime, (es ++ [e]). split; [ exact Hrole | ].
  rewrite run_app. cbn.
  destruct (step (fst (run (setup role connected found touchTime) es)) e); reflexivity.
Qed.

(** ** [atoi] reads back what [sprintf("%d")] writes, for every [int] *)


Lemma isdigit_not_space (c : ascii) : isdigit c = true -> isspace c = false.
Proof.
  unfold isdigit, isspace. intros E. apply andb_true_iff in E. destruct E as [E1 E2].
  apply Z.leb_le in E1, E2.
  apply orb_false_iff. split; [ apply Z.eqb_neq; lia | ].
  apply andb_false_iff. right. apply Z.leb_gt. lia.
Qed.

Lemma saturate_small (z : Z) : INT_MIN <= z <= INT_MAX -> saturate z = z.
Proof. unfold saturate. lia. Qed.

Lemma digit_char_spec (d : Z) :
  0 <= d <= 9 ->
  isdigit (digit_char d) = true /\ code (digit_char d) - 48 = d /\
  isspace (digit_char d) = false /\
  (code (digit_char d) =? 45) = false /\ (code (digit_char d) =? 43) = false.
Proof.
  intros Hd.
  assert (H : d = 0 \/ d = 1 \/ d = 2 \/ d = 3 \/ d = 4 \/ d = 5 \/ d = 6 \/
              d = 7 \/ d = 8 \/ d = 9) by lia.
  repeat (destruct H as [-> | H]; [ repeat split | ]). subst d. repeat split.
Qed.

Lemma digits_value_decimal (fuel : nat) :
  forall n acc, 0 <= n < 10 ^ Z.of_nat fuel ->
  digits_value 0 (decimal fuel n acc) = digits_value n acc.
Proof.
  induction fuel as [ | fuel IH]; intros n acc Hn.
  - cbn in Hn. assert (n = 0) by lia. subst n. reflexivity.
  - cbn [decimal].
    assert (Hm : 0 <= n mod 10 <= 9) by (pose proof (Z.mod_pos_bound n 10); lia).
    destruct (digit_char_spec (n mod 10) Hm) as (Hdig & Hval & _).
    assert (Hstep : forall a, digits_value a (String (digit_char (n mod 10)) acc) =
                              digits_value (10 * a + n mod 10) acc).
    { intros a. cbn [digits_value]. now rewrite Hdig, Hval. }
    destruct (Z.eqb_spec (n / 10) 0) as [Hq | Hq].
    + rewrite Hstep. f_equal. pose proof (Z.div_mod n 10). lia.
    + rewrite IH.
      * rewrite Hstep. f_equal. pose proof (Z.div_mod n 10). lia.
      * rewrite Nat2Z.inj_succ, Z.pow_succ_r in Hn by lia.
        split; [ apply Z.div_pos; lia | apply Z.div_lt_upper_bound; lia ].
Qed.

Lemma decimal_starts_with_digit (fuel : nat) :
  forall n acc, 0 <= n ->
  exists c s, decimal (S fuel) n acc = String c s /\ isdigit c = true.
Proof.
  induction fuel as [ | fuel IH]; intros n acc Hn.
  - cbn [decimal].
    assert (Hm : 0 <= n mod 10 <= 9) by (pose proof (Z.mod_pos_bound n 10); lia).
    destruct (digit_char_spec (n mod 10) Hm) as (Hdig & _).
    destruct (n / 10 =? 0); eauto.
  - change (decimal (S (S fuel)) n acc) with
      (let acc' := String (digit_char (n mod 10)) acc in
       if n / 10 =? 0 then acc' else decimal (S fuel) (n / 10) acc').
    cbv zeta.
    assert (Hm : 0 <= n mod 10 <= 9) by (pose proof (Z.mod_pos_bound n 10); lia).
    destruct (digit_char_spec (n mod 10) Hm) as (Hdig & _).
    destruct (n / 10 =? 0); [ eauto | ].
    apply IH. apply Z.div_pos; lia.
Qed.

Lemma atoi_digits (c : ascii) (s : string) :
  isdigit c = true -> atoi (String c s) = saturate (digits_value 0 (String c s)).
Proof.
  intros Hd. unfold atoi. cbn [skip_space]. rewrite (isdigit_not_space c Hd).
  unfold isdigit in Hd. apply andb_true_iff in Hd. destruct Hd as [H1 H2].
  apply Z.leb_le in H1, H2.
  destruct (Z.eqb_spec (code c) 45); [ lia | ].
  destruct (Z.eqb_spec (code c) 43); [ lia | ]. reflexivity.
Qed.

(** For every value [v] of an [int], [atoi] reads [v] back from the text
    that [sprintf("%d")] writes for it. *)
Lemma atoi_sprintf_d (v : Z) : INT_MIN <= v <= INT_MAX -> atoi (sprintf_d v) = v.
Proof.
  unfold INT_MIN, INT_MAX, sprintf_d. intros Hv.
  destruct (Z.ltb_spec v 0) as [Hneg | Hpos].
  - (* a minus sign, then the digits of [- v] *)
    unfold atoi. cbn [skip_space]. change (isspace "-") with false. cbv iota zeta.
    change (code "-" =? 45) with true. cbv iota.
    rewrite (digits_value_decimal 10) by (change (10 ^ Z.of_nat 10) with 10000000000; lia).
    cbn [digits_value]. rewrite Z.opp_involutive.
    apply saturate_small. unfold INT_MIN, INT_MAX. lia.
  - destruct (decimal_starts_with_digit 9 v EmptyString Hpos) as (c & s & E & Hd).
    rewrite E, (atoi_digits c s Hd), <- E.
    rewrite (digits_value_decimal 10) by (change (10 ^ Z.of_nat 10) with 10000000000; lia).
    cbn [digits_value]. apply saturate_small. unfold INT_MIN, INT_MAX. lia.
Qed.

Lemma atoi_sprintf_position (c : Z) :
  1 <= c <= 3 -> atoi (sprintf_d c) = c /\ (0 <? Z.of_nat (String.length (sprintf_d c))) = true.
Proof.
  intros Hc. assert (H : c = 1 \/ c = 2 \/ c = 3) by lia.
  destruct H as [-> | [-> | ->]]; split; reflexivity.
Qed.

(** ** The wire encoding *)

(** C9: for every position [p] of [1 .. NUM_BARRELS], [atoi] reads [p] back
    from the decimal text that [sprintf("%d")] writes for it, and so the
    receiving callbacks store [p] itself: [onWrite] in [dodgerChoice] and
    [notifyCallback] in [receivedShooterChoice]. *)
Theorem C9_decode_encode (p : Z) (g : Globals) :
  1 <= p <= NUM_BARRELS ->
  atoi (sprintf_d p) = p /\
  dodgerChoice (onWrite (sprintf_d p) g) = p /\
  receivedShooterChoice
    (notifyCallback (sprintf_d p) (Z.of_nat (String.length (sprintf_d p))) g) = p.
Proof.
  unfold NUM_BARRELS. intros Hp.
  assert (H : p = 1 \/ p = 2 \/ p = 3) by lia.
  destruct H as [-> | [-> | ->]]; repeat split.
Qed.

Lemma C9_decode_encode_witness :
  atoi (sprintf_d 2) = 2 /\
  dodgerChoice (onWrite (sprintf_d 2) initial_globals) = 2 /\
  receivedShooterChoice
    (notifyCallback (sprintf_d 2) (Z.of_nat (String.length (sprintf_d 2)))
       initial_globals) = 2.
Proof.
  apply (C9_decode_encode 2 initial_globals). unfold NUM_BARRELS. lia.
Defined.

(** ** How a round is resolved *)

(** The shooter's selection that ends a round: the new choice is one of the
    barrels, and the round is marked safe exactly when it equals the
    dodger's choice. *)
Lemma shooter_resolves_round (inp : LoopInput) (detail : TouchDetail) (g : Globals) :
  deviceRole g = ROLE_SHOOTER -> shooterState g = SHOOTER_WAIT_INPUT ->
  touch inp = Some detail -> wasClicked detail = true -> debounced inp g = false ->
  1 <= barrelChoice (shooterChoice g) detail <= 3 ->
  let g' := fst (loop inp g) in
  shooterState g' = SHOOTER_SHOW_RESULT /\
  shooterChoice g' = barrelChoice (shooterChoice g) detail /\
  roundResultSafe g' = (shooterChoice g' =? dodgerChoice g) /\
  gameOver g' = gameOver g || negb (shooterChoice g' =? dodgerChoice g).
Proof.
  destruct g as [role sst dst rn go safe dch sch conn dir nrcv rsc prc ltt]. cbn.
  intros -> -> Ht Hc Hd [Hb1 Hb2]. unfold loop. cbn [deviceRole shooterState].
  rewrite Ht, Hc, Hd. cbn.
  apply Z.leb_le in Hb1, Hb2. rewrite Hb1, Hb2. cbn.
  destruct (barrelChoice sch detail =? dch) eqn:E; cbn; rewrite ?E;
    repeat split; now destruct go.
Qed.

(** The dodger's pass that consumes the notification: the round is marked
    safe exactly when the received choice equals the dodger's own. *)
Lemma dodger_resolves_round (inp : LoopInput) (g : Globals) :
  deviceRole g = ROLE_DODGER -> dodgerState g = DODGER_WAIT_SHOT ->
  notificationReceived g = true ->
  let g' := fst (loop inp g) in
  dodgerState g' = DODGER_SHOW_RESULT /\
  notificationReceived g' = false /\
  roundResultSafe g' = (receivedShooterChoice g =? dodgerChoice g) /\
  gameOver g' = gameOver g || negb (receivedShooterChoice g =? dodgerChoice g).
Proof.
  destruct g as [role sst dst rn go safe dch sch conn dir nrcv rsc prc ltt]. cbn.
  intros -> -> ->. unfold loop. cbn.
  destruct (rsc =? dch) eqn:E; cbn; rewrite ?E; repeat split; now destruct go.
Qed.

(** C1, on the code: the dodger hides in barrel 2.  A shot at barrel 1, a
    different position, is resolved as a hit on both devices ([gameOver]
    set, round not safe), and a shot at barrel 2, the dodger's own position,
    is resolved as safe on both devices: the comparison of [loop] is the
    opposite of the one the claim states. *)
Theorem C1_hit_when_positions_differ :
  let s0 := setup ROLE_SHOOTER true false 0 in
  let d0 := setup ROLE_DODGER false true 0 in
  let s_miss := fst (run s0 [OnWrite "2"; idle 100; tap 50 200 1000]) in
  let d_miss := fst (run d0 [tap 150 200 900; NotifyCallback "1" 1; idle 1100]) in
  let s_same := fst (run s0 [OnWrite "2"; idle 100; tap 150 200 1000]) in
  let d_same := fst (run d0 [tap 150 200 900; NotifyCallback "2" 1; idle 1100]) in
  (dodgerChoice s_miss = 2 /\ shooterChoice s_miss = 1 /\
   roundResultSafe s_miss = false /\ gameOver s_miss = true) /\
  (dodgerChoice d_miss = 2 /\ receivedShooterChoice d_miss = 1 /\
   roundResultSafe d_miss = false /\ gameOver d_miss = true) /\
  (dodgerChoice s_same = 2 /\ shooterChoice s_same = 2 /\
   roundResultSafe s_same = true /\ gameOver s_same = false) /\
  (dodgerChoice d_same = 2 /\ receivedShooterChoice d_same = 2 /\
   roundResultSafe d_same = true /\ gameOver d_same = false).
Proof. cbv zeta. repeat split. Qed.

(** ** The end of a session *)

(** C2: on either device, the pass of [loop] that leaves the result screen
    of a round moves to the game-over state exactly when [gameOver] is set or
    [MAX_ROUNDS] rounds have been played and the last one was safe; in that
    case the round number stays, and otherwise the round number is
    incremented and the state machine waits for the next round. *)
Theorem C2_session_ends_iff (inp : LoopInput) (g : Globals) :
  reachable g ->
  atShowResult g = true ->
  let g' := fst (loop inp g) in
  (atGameOver g' = true <->
     gameOver g = true \/ (MAX_ROUNDS <= roundNumber g /\ roundResultSafe g = true)) /\
  (atGameOver g' = true -> roundNumber g' = roundNumber g) /\
  (atGameOver g' = false ->
     atRoundStart g' = true /\ roundNumber g' = roundNumber g + 1).
Proof.
  intros Hreach Hshow. pose proof (reachable_inv g Hreach) as Hinv.
  revert Hshow Hinv. unfold inv, atShowResult, atGameOver, atRoundStart.
  loop_cases g; intros Hshow [Hr Hg]; try discriminate; subst.
  all: match goal with H : _ || _ = _ |- _ => rename H into Hover end.
  - (* shooter, session over *)
    split; [ | split; [ reflexivity | discriminate ] ].
    split; [ intros _ | reflexivity ].
    apply orb_true_iff in Hover. destruct Hover as [H | H]; [ now left | right ].
    apply andb_true_iff in H. destruct H as [H1 H2]. apply Z.leb_le in H1. now split.
  - (* shooter, next round *)
    destruct (next_round_in_range _ _ Hover Hr) as (-> & Hlt & ->).
    split; [ | split; [ discriminate | now split ] ].
    split; [ discriminate | ]. cbn. intros [H | [H _]]; [ discriminate | lia ].
  - (* dodger, session over *)
    split; [ | split; [ reflexivity | discriminate ] ].
    split; [ intros _ | reflexivity ].
    apply orb_true_iff in Hover. destruct Hover as [H | H]; [ now left | right ].
    apply andb_true_iff in H. destruct H as [H1 H2]. apply Z.leb_le in H1. now split.
  - (* dodger, next round *)
    destruct (next_round_in_range _ _ Hover Hr) as (-> & Hlt & ->).
    split; [ | split; [ discriminate | now split ] ].
    split; [ discriminate | ]. cbn. intros [H | [H _]]; [ discriminate | lia ].
Qed.

Lemma C2_session_ends_iff_witness :
  let g' := fst (loop (mkInput None 2600 2600) shooter_round1_shown) in
  (atGameOver g' = true <->
     gameOver shooter_round1_shown = true \/
     (MAX_ROUNDS <= roundNumber shooter_round1_shown /\
      roundResultSafe shooter_round1_shown = true)) /\
  (atGameOver g' = true -> roundNumber g' = roundNumber shooter_round1_shown) /\
  (atGameOver g' = false ->
     atRoundStart g' = true /\ roundNumber g' = roundNumber shooter_round1_shown + 1).
Proof.
  apply (C2_session_ends_iff (mkInput None 2600 2600) shooter_round1_shown).
  - exists ROLE_SHOOTER, true, false, 0, [OnWrite "2"; idle 100; tap 150 200 1000].
    split; [ discriminate | reflexivity ].
  - reflexivity.
Defined.

(** ** The verdict *)

Lemma gameOver_result_flag g :
  inv g -> atGameOver g = true -> roundResultSafe g = negb (gameOver g).
Proof.
  unfold inv, atGameOver. destruct g as [role sst dst ? go safe ? ? ? ? ? ? ? ?]. cbn.
  intros [_ H] Hover.
  destruct role; [ discriminate | destruct sst | destruct dst ];
    try discriminate; subst; now rewrite negb_involutive.
Qed.

(** At its game-over screen a device draws, in every pass of [loop], the
    verdict that its own [gameOver] flag gives its role: the dodger loses
    when it is set and wins when it is not, the shooter the other way
    round. *)
Lemma verdict_drawn_by_own_flag (inp : LoopInput) (g : Globals) :
  reachable g -> atGameOver g = true ->
  snd (loop inp g) = [GameOverScreen (spec_verdict (deviceRole g) (gameOver g))].
Proof.
  intros Hreach Hover.
  pose proof (gameOver_result_flag g (reachable_inv g Hreach) Hover) as Hflag.
  revert Hover Hflag. unfold atGameOver, loop, drawGameOverScreen, gameOverResult, spec_verdict.
  destruct g as [role sst dst rn go safe dch sch conn dir nrcv rsc prc ltt].
  cbn [deviceRole shooterState dodgerState roundResultSafe gameOver].
  destruct role; [ discriminate | destruct sst | destruct dst ]; try discriminate;
    intros _ ->; rewrite negb_involutive; repeat break_if; reflexivity.
Qed.

(** A game that its first round ends: both devices hold [gameOver], and
    they draw opposite verdicts. *)
Example verdicts_of_one_game :
  gameOver shooter_game_over = true /\ gameOver dodger_game_over = true /\
  snd (loop (mkInput None 5000 5000) shooter_game_over) = [GameOverScreen "You Win!"] /\
  snd (loop (mkInput None 5000 5000) dodger_game_over) = [GameOverScreen "You Lose!"].
Proof. repeat split; vm_compute; reflexivity. Qed.

(** [notifyCallback] hands [atoi] the pointer and not the [length] bytes of
    the notification: a digit that follows the payload in memory is read as
    part of the position.  [onWrite] reads the value it was written. *)
Example notification_read_past_its_length :
  receivedShooterChoice (notifyCallback "27" 1 initial_globals) = 27 /\
  receivedShooterChoice (notifyCallback "2" 1 initial_globals) = 2 /\
  dodgerChoice (onWrite "2" initial_globals) = 2.
Proof. repeat split. Qed.

(** Where the three executions of the five-round game end. *)
Lemma five_rounds_end :
  fst (run (setup ROLE_SHOOTER true false 0) shooter_five_rounds) =
    mkGlobals ROLE_SHOOTER SHOOTER_GAME_OVER DODGER_WAIT_INPUT 5 false true 2 2
      true false false 0 false 13000 /\
  fst (run (setup ROLE_DODGER false true 0) (dodger_five_rounds "27")) =
    mkGlobals ROLE_DODGER SHOOTER_WAIT_DODGER DODGER_GAME_OVER 5 true false 2 0
      false false false 27 true 12900 /\
  fst (run (setup ROLE_DODGER false true 0) (dodger_five_rounds "2")) =
    mkGlobals ROLE_DODGER SHOOTER_WAIT_DODGER DODGER_GAME_OVER 5 false true 2 0
      false false false 2 true 12900.
Proof. split; [ | split ]; vm_compute; reflexivity. Qed.

(** C3: in a game of five rounds in which the dodger hides in barrel 2 and
    the shooter shoots at barrel 2 every time, the shooter notifies "2" five
    times and the dodger writes "2" five times.  When the byte after the
    fifth notification is the digit 7, [notifyCallback] reads 27: the dodger
    takes the round for a hit and raises [gameOver], the shooter does not.
    Both devices come to their game-over screen, and every pass of [loop]
    draws "You Lose!" on both: no side wins.  When the fifth notification is
    read as it was sent, the dodger draws "You Win!". *)
Theorem C3_both_devices_lose (inp : LoopInput) :
  let s := run (setup ROLE_SHOOTER true false 0) shooter_five_rounds in
  let d := run (setup ROLE_DODGER false true 0) (dodger_five_rounds "27") in
  let d2 := run (setup ROLE_DODGER false true 0) (dodger_five_rounds "2") in
  sends (snd s) = repeat (Notify "2") 5 /\
  sends (snd d) = repeat (WriteValue "2") 5 /\
  atGameOver (fst s) = true /\ atGameOver (fst d) = true /\
  gameOver (fst s) = false /\ gameOver (fst d) = true /\
  snd (loop inp (fst s)) = [GameOverScreen "You Lose!"] /\
  snd (loop inp (fst d)) = [GameOverScreen "You Lose!"] /\
  snd (loop inp (fst d2)) = [GameOverScreen "You Win!"].
Proof.
  cbv zeta. destruct five_rounds_end as (Es & Ed & Ed2). rewrite Es, Ed, Ed2.
  split; [ vm_compute; reflexivity | ].
  split; [ vm_compute; reflexivity | ].
  repeat (split; [ reflexivity | ]).
  unfold loop; cbn [deviceRole shooterState dodgerState].
  split; [ | split ]; repeat break_if; reflexivity.
Qed.

(** C10: in every state a device can reach, a set [gameOver] comes with a
    cleared [roundResultSafe]; and at the game-over screen the result line,
    which [drawGameOverScreen] takes from [roundResultSafe], is the verdict
    that the specification derives from the elimination flag [gameOver]. *)
Theorem C10_gameOver_implies_unsafe (g : Globals) :
  reachable g ->
  (gameOver g = true -> roundResultSafe g = false) /\
  (atGameOver g = true ->
   gameOverResult g = spec_verdict (deviceRole g) (gameOver g)).
Proof.
  intros Hreach. pose proof (reachable_inv g Hreach) as Hinv. split.
  - revert Hinv. unfold inv. destruct g as [role sst dst ? go safe ? ? ? ? ? ? ? ?]. cbn.
    intros [_ H] ->.
    destruct role; [ | destruct sst | destruct dst ];
      try discriminate; try (now destruct safe).
    (* ROLE_UNDEFINED is not a role of a running device *)
    exfalso. now apply (reachable_role _ Hreach).
  - intros Hover. unfold gameOverResult, spec_verdict.
    rewrite (gameOver_result_flag g Hinv Hover), negb_involutive.
    reflexivity.
Qed.

Lemma C10_gameOver_implies_unsafe_witness :
  (gameOver shooter_game_over = true -> roundResultSafe shooter_game_over = false) /\
  (atGameOver shooter_game_over = true ->
   gameOverResult shooter_game_over =
   spec_verdict (deviceRole shooter_game_over) (gameOver shooter_game_over)).
Proof.
  apply (C10_gameOver_implies_unsafe shooter_game_over).
  exists ROLE_SHOOTER, true, false, 0,
    [OnWrite "2"; idle 100; tap 50 200 1000; idle 2600].
  split; [ discriminate | reflexivity ].
Defined.

(** ** Inbound messages are not validated *)





(** ** The elimination flag is sticky *)

(** C6: whatever the state of the device, an event that finds [gameOver]
    set leaves it set, unless the event is the restart from the game-over
    screen; that restart, and nothing else, clears the flag. *)
Theorem C6_gameOver_monotonic (g : Globals) (e : Event) :
  gameOver g = true ->
  gameOver (fst (step g e)) = negb (restarts g e).
Proof.
  intros Hgo. destruct e as [inp | | | rx | pData len]; cbn [step fst restarts].
  - revert Hgo. unfold atGameOver.
    loop_cases g; intros ->; reflexivity.
  - exact Hgo.
  - exact Hgo.
  - unfold onWrite. now break_if.
  - unfold notifyCallback. now break_if.
Qed.

Lemma C6_gameOver_monotonic_witness :
  gameOver (fst (step shooter_game_over (tap 0 0 5000))) =
  negb (restarts shooter_game_over (tap 0 0 5000)).
Proof.
  apply (C6_gameOver_monotonic shooter_game_over (tap 0 0 5000)).
  reflexivity.
Defined.

(** The restart is there and does clear the flag. *)
Example restart_clears_gameOver :
  restarts shooter_game_over (tap 160 140 5000) = true /\
  gameOver shooter_game_over = true /\
  fst (step shooter_game_over (tap 160 140 5000)) =
    set_lastTouchTime 5000 (setup ROLE_SHOOTER true false 0).
Proof. repeat split. Qed.

(** ** Touches that hit no barrel *)

Lemma barrelChoice_miss (choice : Z) (detail : TouchDetail) :
  missesBarrels detail = true -> barrelChoice choice detail = choice.
Proof.
  unfold missesBarrels, barrelChoice. intros H.
  apply andb_true_iff in H. destruct H as [H H3].
  apply andb_true_iff in H. destruct H as [H1 H2].
  apply negb_true_iff in H1, H2, H3. now rewrite H1, H2, H3.
Qed.

Lemma barrelChoice_range (choice : Z) (detail : TouchDetail) :
  missesBarrels detail = false -> 1 <= barrelChoice choice detail <= 3.
Proof.
  unfold missesBarrels, barrelChoice. intros H.
  repeat break_if; cbn in H; (lia || discriminate).
Qed.

(** While the own choice variable holds no barrel, as it does from
    [resetGame] to the first selection, a touch that hits no barrel is
    ignored: nothing is sent, and only [lastTouchTime] can change. *)
Lemma miss_ignored_without_choice (inp : LoopInput) (detail : TouchDetail) (g : Globals) :
  touch inp = Some detail -> missesBarrels detail = true ->
  atOwnChoice g = true ->
  ~ 1 <= ownChoice g <= 3 ->
  sends (snd (loop inp g)) = [] /\
  set_lastTouchTime 0 (fst (loop inp g)) = set_lastTouchTime 0 g.
Proof.
  intros Ht Hm Hs Hc.
  assert (E : (1 <=? ownChoice g) && (ownChoice g <=? 3) = false).
  { apply andb_false_iff.
    destruct (Z.leb_spec 1 (ownChoice g)); [ right; apply Z.leb_gt; lia | now left ]. }
  revert Hs E. clear Hc.
  unfold atOwnChoice, ownChoice.
  destruct g as [role sst dst rn go safe dch sch conn dir nrcv rsc prc ltt].
  unfold loop. cbv zeta. rewrite Ht, !(barrelChoice_miss _ _ Hm).
  destruct role; [ | destruct sst | destruct dst ]; cbn; try discriminate;
    intros _ E; rewrite E; repeat (break_if; cbn); split; reflexivity.
Qed.

(** Once the shooter's choice variable holds a barrel, a click that hits
    no barrel resolves the round with that stale choice. *)
Lemma miss_resolves_with_stale_choice
    (inp : LoopInput) (detail : TouchDetail) (g : Globals) :
  deviceRole g = ROLE_SHOOTER -> shooterState g = SHOOTER_WAIT_INPUT ->
  touch inp = Some detail -> wasClicked detail = true -> debounced inp g = false ->
  missesBarrels detail = true ->
  1 <= shooterChoice g <= 3 ->
  shooterState (fst (loop inp g)) = SHOOTER_SHOW_RESULT /\
  shooterChoice (fst (loop inp g)) = shooterChoice g.
Proof.
  intros Hr Hs Ht Hc Hd Hm Hb.
  pose proof (shooter_resolves_round inp detail g Hr Hs Ht Hc Hd) as H.
  rewrite (barrelChoice_miss _ _ Hm) in H. cbv zeta in H.
  destruct (H Hb) as (H1 & H2 & _). now split.
Qed.

(** C7, on the code: in the second round of a shooter whose first shot was
    barrel 2, a click at (0, 0), which hits none of the barrel buttons, is
    taken as another shot at barrel 2: the stale [shooterChoice] passes the
    range test, the round is resolved, "2" is notified and the state machine
    moves to the result screen.  The same click in the first round is
    ignored. *)
Theorem C7_miss_reuses_stale_choice :
  let s0 := setup ROLE_SHOOTER true false 0 in
  let round1 := fst (run s0 [OnWrite "2"; idle 100]) in
  let round2 :=
    fst (run s0 [OnWrite "2"; idle 100; tap 150 200 1000; idle 2600;
                 OnWrite "2"; idle 2700]) in
  let click := mkInput (Some (mkTouch 0 0 true)) 4000 4000 in
  missesBarrels (mkTouch 0 0 true) = true /\
  (shooterState round1 = SHOOTER_WAIT_INPUT /\ roundNumber round1 = 1 /\
   shooterState (fst (loop click round1)) = SHOOTER_WAIT_INPUT /\
   sends (snd (loop click round1)) = []) /\
  (shooterState round2 = SHOOTER_WAIT_INPUT /\ roundNumber round2 = 2 /\
   shooterChoice round2 = 2 /\
   shooterState (fst (loop click round2)) = SHOOTER_SHOW_RESULT /\
   roundResultSafe (fst (loop click round2)) = true /\
   sends (snd (loop click round2)) = [Notify "2"]).
Proof. cbv zeta. repeat split. Qed.

(** The dodger's second round has the same defect: the click at (0, 0)
    sends the stale [dodgerChoice] again. *)
Example dodger_miss_reuses_stale_choice :
  let round2 :=
    fst (run (setup ROLE_DODGER false true 0)
           [tap 150 200 900; NotifyCallback "2" 1; idle 1100; idle 2700]) in
  let click := mkInput (Some (mkTouch 0 0 true)) 4000 4000 in
  dodgerState round2 = DODGER_WAIT_INPUT /\ roundNumber round2 = 2 /\
  dodgerState (fst (loop click round2)) = DODGER_WAIT_SHOT /\
  sends (snd (loop click round2)) = [WriteValue "2"].
Proof. cbv zeta. repeat split. Qed.

(** ** Sending without a peer *)

(** C8: a pass of [loop] without a peer ([deviceConnected] false on the
    shooter, no remote characteristic on the dodger) hands nothing to the BLE
    stack, and otherwise does what the same pass does with a peer: the same
    screens are drawn and the globals after it are the same, up to the peer
    flag itself. *)
Theorem C8_send_dropped_silently (inp : LoopInput) (g : Globals) :
  sends (snd (loop inp (set_peer false g))) = [] /\
  screens (snd (loop inp (set_peer false g))) =
    screens (snd (loop inp (set_peer true g))) /\
  fst (loop inp (set_peer false g)) =
    set_peer false (fst (loop inp (set_peer true g))).
Proof.
  destruct g as [role sst dst ? ? ? ? ? ? ? ? ? ? ?].
  unfold set_peer, loop, debounced.
  destruct role; [ | destruct sst | destruct dst ]; cbn;
    repeat (break_if; cbn); cbn in *; repeat split; congruence.
Qed.

(** With a peer the selection that ends the round is sent, so the theorem
    above does compare a send with a dropped one. *)
Example send_with_and_without_peer :
  let g := fst (run (setup ROLE_SHOOTER true false 0) [OnWrite "2"; idle 100]) in
  let inp := mkInput (Some (mkTouch 150 200 true)) 1000 1000 in
  sends (snd (loop inp (set_peer true g))) = [Notify "2"] /\
  sends (snd (loop inp (set_peer false g))) = [] /\
  shooterState (fst (loop inp (set_peer false g))) = SHOOTER_SHOW_RESULT /\
  roundResultSafe (fst (loop inp (set_peer false g))) = true.
Proof. repeat split. Qed.

(** ** What one pass of [loop] does, state by state *)

Lemma sameGame_fields (g g' : Globals) :
  sameGame g g' ->
  deviceRole g' = deviceRole g /\ shooterState g' = shooterState g /\
  dodgerState g' = dodgerState g /\ roundNumber g' = roundNumber g /\
  gameOver g' = gameOver g /\ roundResultSafe g' = roundResultSafe g /\
  dodgerChoice g' = dodgerChoice g /\ shooterChoice g' = shooterChoice g /\
  deviceConnected g' = deviceConnected g /\
  dodgerInputReceived g' = dodgerInputReceived g /\
  notificationReceived g' = notificationReceived g /\
  receivedShooterChoice g' = receivedShooterChoice g /\
  pRemoteCharacteristic g' = pRemoteCharacteristic g.
Proof.
  unfold sameGame. destruct g, g'. cbn. intros [= -> -> -> -> -> -> -> -> -> -> -> -> ->].
  repeat split.
Qed.

Lemma sameGame_sessionOver (g g' : Globals) :
  sameGame g g' -> sessionOver g' = sessionOver g.
Proof.
  intros H. apply sameGame_fields in H. unfold sessionOver.
  destruct H as (_ & _ & _ & -> & -> & -> & _). reflexivity.
Qed.

Lemma shooter_loop_spec (inp : LoopInput) (s : Globals) :
  deviceRole s = ROLE_SHOOTER -> inv s ->
  let s' := fst (loop inp s) in
  let out := snd (loop inp s) in
  deviceRole s' = ROLE_SHOOTER /\
  match shooterState s with
  | SHOOTER_WAIT_DODGER =>
      notified out = [] /\
      ((dodgerInputReceived s = false /\ s' = s) \/
       (dodgerInputReceived s = true /\ shooterState s' = SHOOTER_WAIT_INPUT /\
        dodgerInputReceived s' = false /\ dodgerChoice s' = dodgerChoice s /\
        roundNumber s' = roundNumber s))
  | SHOOTER_WAIT_INPUT =>
      (notified out = [] /\ sameGame s s') \/
      (shooterState s' = SHOOTER_SHOW_RESULT /\
       1 <= shooterChoice s' <= 3 /\
       (notified out = [] \/ notified out = [sprintf_d (shooterChoice s')]) /\
       roundResultSafe s' = (shooterChoice s' =? dodgerChoice s) /\
       gameOver s' = negb (shooterChoice s' =? dodgerChoice s) /\
       dodgerInputReceived s' = dodgerInputReceived s /\
       dodgerChoice s' = dodgerChoice s /\
       roundNumber s' = roundNumber s)
  | SHOOTER_SHOW_RESULT =>
      notified out = [] /\
      dodgerInputReceived s' = dodgerInputReceived s /\
      dodgerChoice s' = dodgerChoice s /\
      roundResultSafe s' = roundResultSafe s /\
      gameOver s' = gameOver s /\
      ((sessionOver s = true /\ shooterState s' = SHOOTER_GAME_OVER) \/
       (sessionOver s = false /\ shooterState s' = SHOOTER_WAIT_DODGER /\
        roundNumber s' = roundNumber s + 1))
  | SHOOTER_GAME_OVER =>
      notified out = [] /\
      (sameGame s s' \/
       (shooterState s' = SHOOTER_WAIT_DODGER /\ roundNumber s' = 1 /\
        dodgerInputReceived s' = false))
  end.
Proof.
  unfold inv, sessionOver, sameGame.
  destruct s as [role sst dst rn go safe dch sch conn dir nrcv rsc prc ltt].
  cbn [deviceRole shooterState]. intros -> [Hr Hg].
  unfold loop; cbn [deviceRole shooterState]. destruct sst; cbn in Hg; subst.
  - (* SHOOTER_WAIT_DODGER *)
    destruct dir; cbn; repeat split; auto.
    right. repeat split.
  - (* SHOOTER_WAIT_INPUT *)
    destruct (touch inp) as [detail | ]; [ | cbn; split; [ reflexivity | left; now split ] ].
    destruct (wasClicked detail); [ | cbn; split; [ reflexivity | left; now split ] ].
    destruct (debounced inp _); [ cbn; split; [ reflexivity | left; now split ] | ].
    cbn. destruct ((1 <=? barrelChoice sch detail) && (barrelChoice sch detail <=? 3)) eqn:Eb.
    2:{ (* no barrel is hit and the stored choice is none either *)
      destruct (missesBarrels detail) eqn:Em.
      - rewrite (barrelChoice_miss _ _ Em). cbn. split; [ reflexivity | left; now split ].
      - pose proof (barrelChoice_range sch detail Em) as [H1 H2].
        apply Z.leb_le in H1, H2. rewrite H1, H2 in Eb. discriminate. }
    apply andb_true_iff in Eb. destruct Eb as [E1 E2]. apply Z.leb_le in E1, E2.
    destruct (barrelChoice sch detail =? dch) eqn:Ec; destruct conn; cbn; rewrite ?Ec;
      (split; [ reflexivity | right; repeat split; auto ]).
  - (* SHOOTER_SHOW_RESULT *)
    destruct (negb safe || (MAX_ROUNDS <=? rn) && safe) eqn:Eo; cbn; rewrite ?Eo.
    + repeat split. now left.
    + destruct (next_round_in_range _ _ Eo Hr) as (-> & Hlt & ->).
      repeat split. right. repeat split; auto.
  - (* SHOOTER_GAME_OVER *)
    destruct (touch inp) as [detail | ]; [ | cbn; repeat split; now left ].
    destruct (wasClicked detail); [ | cbn; repeat split; now left ].
    destruct (debounced inp _); [ cbn; repeat split; now left | ].
    destruct (restartHit detail); cbn; repeat split; [ now right | now left ].
Qed.

Lemma dodger_loop_spec (inp : LoopInput) (d : Globals) :
  deviceRole d = ROLE_DODGER -> inv d ->
  let d' := fst (loop inp d) in
  let out := snd (loop inp d) in
  deviceRole d' = ROLE_DODGER /\
  pRemoteCharacteristic d' = pRemoteCharacteristic d /\
  match dodgerState d with
  | DODGER_WAIT_INPUT =>
      (written out = [] /\ sameGame d d') \/
      (dodgerState d' = DODGER_WAIT_SHOT /\
       1 <= dodgerChoice d' <= 3 /\
       written out =
         (if pRemoteCharacteristic d then [sprintf_d (dodgerChoice d')] else []) /\
       notificationReceived d' = notificationReceived d /\
       roundNumber d' = roundNumber d)
  | DODGER_WAIT_SHOT =>
      written out = [] /\
      ((notificationReceived d = false /\ d' = d) \/
       (notificationReceived d = true /\ dodgerState d' = DODGER_SHOW_RESULT /\
        notificationReceived d' = false /\
        roundResultSafe d' = (receivedShooterChoice d =? dodgerChoice d) /\
        roundNumber d' = roundNumber d))
  | DODGER_SHOW_RESULT =>
      written out = [] /\
      notificationReceived d' = notificationReceived d /\
      roundResultSafe d' = roundResultSafe d /\
      ((sessionOver d = true /\ dodgerState d' = DODGER_GAME_OVER) \/
       (sessionOver d = false /\ dodgerState d' = DODGER_WAIT_INPUT /\
        roundNumber d' = roundNumber d + 1))
  | DODGER_GAME_OVER =>
      written out = [] /\
      (sameGame d d' \/
       (dodgerState d' = DODGER_WAIT_INPUT /\ roundNumber d' = 1 /\
        notificationReceived d' = false))
  end.
Proof.
  unfold inv, sessionOver, sameGame.
  destruct d as [role sst dst rn go safe dch sch conn dir nrcv rsc prc ltt].
  cbn [deviceRole dodgerState]. intros -> [Hr Hg].
  unfold loop; cbn [deviceRole dodgerState]. destruct dst; cbn in Hg; subst.
  - (* DODGER_WAIT_INPUT *)
    destruct (touch inp) as [detail | ]; [ | cbn; repeat split; left; now split ].
    destruct (wasClicked detail); [ | cbn; repeat split; left; now split ].
    destruct (debounced inp _); [ cbn; repeat split; left; now split | ].
    cbn. destruct ((1 <=? barrelChoice dch detail) && (barrelChoice dch detail <=? 3)) eqn:Eb.
    2:{ (* no barrel is hit and the stored choice is none either *)
      destruct (missesBarrels detail) eqn:Em.
      - rewrite (barrelChoice_miss _ _ Em). cbn. repeat split. left; now split.
      - pose proof (barrelChoice_range dch detail Em) as [H1 H2].
        apply Z.leb_le in H1, H2. rewrite H1, H2 in Eb. discriminate. }
    apply andb_true_iff in Eb. destruct Eb as [E1 E2]. apply Z.leb_le in E1, E2.
    destruct prc; cbn; (split; [ reflexivity | split; [ reflexivity | right; repeat split; auto ] ]).
  - (* DODGER_WAIT_SHOT *)
    destruct nrcv; cbn; [ | repeat split; left; now split ].
    destruct (rsc =? dch) eqn:Ec; cbn; repeat split; right; repeat split.
  - (* DODGER_SHOW_RESULT *)
    destruct (negb safe || (MAX_ROUNDS <=? rn) && safe) eqn:Eo; cbn; rewrite ?Eo.
    + repeat split. now left.
    + destruct (next_round_in_range _ _ Eo Hr) as (-> & Hlt & ->).
      repeat split. right. repeat split; auto.
  - (* DODGER_GAME_OVER *)
    destruct (touch inp) as [detail | ]; [ | cbn; repeat split; now left ].
    destruct (wasClicked detail); [ | cbn; repeat split; now left ].
    destruct (debounced inp _); [ cbn; repeat split; now left | ].
    destruct (restartHit detail); cbn; repeat split; [ now right | now left ].
Qed.

(** ** A position on the wire

    What a callback stores when it is handed a position as [sprintf("%d")]
    wrote it, and nothing after it. *)

Lemma onWrite_position (c : Z) (s : Globals) :
  1 <= c <= 3 ->
  onWrite (sprintf_d c) s = set_dodgerInputReceived true (set_dodgerChoice c s).
Proof.
  intros Hc. destruct (atoi_sprintf_position c Hc) as [Ha Hl].
  unfold onWrite. now rewrite Hl, Ha.
Qed.

Lemma notifyCallback_position (c : Z) (d : Globals) :
  1 <= c <= 3 ->
  notifyCallback (sprintf_d c) (Z.of_nat (String.length (sprintf_d c))) d =
  set_notificationReceived true (set_receivedShooterChoice c d).
Proof.
  intros Hc. destruct (atoi_sprintf_position c Hc) as [Ha Hl].
  unfold notifyCallback. now rewrite Hl, Ha.
Qed.

(** ** The dodger commits before the shooter acts *)

Lemma run_cons (g : Globals) (e : Event) (es : list Event) :
  run g (e :: es) =
  (fst (run (fst (step g e)) es), snd (step g e) ++ snd (run (fst (step g e)) es)).
Proof.
  cbn [run]. destruct (step g e) as [g1 out1]. cbn [fst snd].
  destruct (run g1 es) as [g2 out2]. reflexivity.
Qed.

(** One event on the shooter: a selection is taken only against a choice
    received before, a choice is credited only when [onWrite] brings one,
    and nothing is notified but by the pass that takes a selection. *)
Lemma shooter_credit_step (g : Globals) (e : Event) :
  deviceRole g = ROLE_SHOOTER ->
  deviceRole (fst (step g e)) = ROLE_SHOOTER /\
  ((if resolvesRound g e then 1 else 0) + shooterCredit (fst (step g e)) <=
   (if deliversChoice g e then 1 else 0) + shooterCredit g)%nat /\
  (List.length (sends (snd (step g e))) <= (if resolvesRound g e then 1 else 0))%nat.
Proof.
  destruct g as [role sst dst rn go safe dch sch conn dir nrcv rsc prc ltt].
  cbn [deviceRole]. intros ->.
  destruct e as [inp | | | rxValue | pData len];
    unfold resolvesRound, deliversChoice, step, onConnect, onDisconnect, onWrite,
      notifyCallback, atShowResult, shooterCredit, loop;
    cbn [deviceRole shooterState dodgerInputReceived fst snd].
  - destruct sst; repeat break_if; cbn in *;
      repeat match goal with |- _ /\ _ => split end;
      try reflexivity; try lia; congruence.
  - destruct sst, dir; cbn; repeat split; lia.
  - destruct sst, dir; cbn; repeat split; lia.
  - destruct (0 <? Z.of_nat (String.length rxValue)); destruct sst, dir; cbn;
      repeat split; lia.
  - destruct (0 <? len); destruct sst, dir; cbn; repeat split; lia.
Qed.

(** In every execution of the shooter, from any of its states, the
    selections taken are covered by the choices received on the way and
    those received before, and the notifications by the selections taken. *)
Lemma shooter_acts_on_credit (es : list Event) :
  forall g, deviceRole g = ROLE_SHOOTER ->
  (countEvents resolvesRound g es <= countEvents deliversChoice g es + shooterCredit g)%nat /\
  (List.length (sends (snd (run g es))) <= countEvents resolvesRound g es)%nat.
Proof.
  induction es as [ | e es IH]; intros g Hrole; [ cbn; lia | ].
  destruct (shooter_credit_step g e Hrole) as (Hrole' & Hstep & Hsend).
  destruct (IH _ Hrole') as [IH1 IH2].
  rewrite run_cons. cbn [snd countEvents]. unfold sends in *.
  rewrite filter_app, length_app.
  destruct (resolvesRound g e), (deliversChoice g e); lia.
Qed.

(** One event on the dodger: the pass that enters [DODGER_WAIT_SHOT] holds a
    barrel as its choice and writes it to the shooter, if the remote
    characteristic was found; nothing else is ever sent; and the shooter's
    choice is read only from [DODGER_WAIT_SHOT]. *)
Lemma dodger_commit_step (g : Globals) (e : Event) :
  deviceRole g = ROLE_DODGER ->
  deviceRole (fst (step g e)) = ROLE_DODGER /\
  pRemoteCharacteristic (fst (step g e)) = pRemoteCharacteristic g /\
  sends (snd (step g e)) =
    (if entersWaitShot g e && pRemoteCharacteristic g
     then [WriteValue (sprintf_d (dodgerChoice (fst (step g e))))] else []) /\
  (entersWaitShot g e = true -> 1 <= dodgerChoice (fst (step g e)) <= 3) /\
  ((if resolvesRound g e then 1 else 0) + dodgerCredit (fst (step g e)) <=
   (if entersWaitShot g e then 1 else 0) + dodgerCredit g)%nat.
Proof.
  destruct g as [role sst dst rn go safe dch sch conn dir nrcv rsc prc ltt].
  cbn [deviceRole]. intros ->.
  destruct e as [inp | | | rxValue | pData len];
    unfold resolvesRound, entersWaitShot, step, onConnect, onDisconnect, onWrite,
      notifyCallback, atShowResult, dodgerCredit, loop;
    cbn [deviceRole dodgerState pRemoteCharacteristic fst snd].
  - destruct dst; repeat break_if; cbn in *;
      repeat match goal with |- _ /\ _ => split end;
      try reflexivity; try lia; try congruence; intros _.
    all: match goal with
         | H : _ && _ = true |- _ =>
             apply andb_true_iff in H; destruct H as [H1 H2];
             apply Z.leb_le in H1, H2; cbn in H1, H2; lia
         end.
  - destruct dst; cbn; repeat split; try discriminate; lia.
  - destruct dst; cbn; repeat split; try discriminate; lia.
  - destruct (0 <? Z.of_nat (String.length rxValue)); destruct dst; cbn;
      repeat split; try discriminate; lia.
  - destruct (0 <? len); destruct dst; cbn; repeat split; try discriminate; lia.
Qed.

(** In every execution of the dodger, from any of its states. *)
Lemma dodger_commits (es : list Event) :
  forall g, deviceRole g = ROLE_DODGER ->
  Forall (fun c => 1 <= c <= 3) (choicesCommitted g es) /\
  sends (snd (run g es)) =
    (if pRemoteCharacteristic g
     then map (fun c => WriteValue (sprintf_d c)) (choicesCommitted g es) else []) /\
  (countEvents resolvesRound g es <= List.length (choicesCommitted g es) + dodgerCredit g)%nat.
Proof.
  induction es as [ | e es IH]; intros g Hrole.
  - cbn. repeat split; [ constructor | now destruct (pRemoteCharacteristic g) | lia ].
  - destruct (dodger_commit_step g e Hrole) as (Hrole' & Hp & Hsend & Hrange & Hcredit).
    destruct (IH _ Hrole') as (IH1 & IH2 & IH3).
    rewrite run_cons. cbn [snd countEvents choicesCommitted].
    unfold sends in *. rewrite filter_app, Hsend, IH2, Hp.
    rewrite length_app, map_app.
    destruct (resolvesRound g e), (entersWaitShot g e);
      cbn [andb List.length app map] in *.
    all: split; [ | split; [ now destruct (pRemoteCharacteristic g) | lia ] ].
    all: try exact IH1.
    all: constructor; [ now apply Hrange | exact IH1 ].
Qed.

(** The dodger has written no more values than it has committed choices. *)
Lemma dodger_writes_after_commit (es : list Event) (g : Globals) :
  deviceRole g = ROLE_DODGER ->
  (List.length (sends (snd (run g es))) <= List.length (choicesCommitted g es))%nat.
Proof.
  intros Hrole. destruct (dodger_commits es g Hrole) as (_ & -> & _).
  destruct (pRemoteCharacteristic g); [ rewrite length_map | cbn [List.length] ]; lia.
Qed.

(** While the dodger waits for its own selection, a pass of [loop] reads
    nothing of what the shooter has notified. *)
Lemma dodger_selection_blind (inp : LoopInput) (v : Z) (b : bool) (d : Globals) :
  deviceRole d = ROLE_DODGER -> dodgerState d = DODGER_WAIT_INPUT ->
  loop inp (set_receivedShooterChoice v (set_notificationReceived b d)) =
  (set_receivedShooterChoice v (set_notificationReceived b (fst (loop inp d))),
   snd (loop inp d)).
Proof.
  destruct d as [role sst dst rn go safe dch sch conn dir nrcv rsc prc ltt].
  cbn [deviceRole dodgerState]. intros -> ->.
  unfold loop, debounced. cbn.
  destruct (touch inp) as [detail | ]; [ | reflexivity ].
  destruct (wasClicked detail); [ | reflexivity ].
  destruct (wrap_ulong (millis_test inp - ltt) <? touchDebounce); [ reflexivity | ].
  cbn. destruct ((1 <=? barrelChoice dch detail) && (barrelChoice dch detail <=? 3));
    [ | reflexivity ].
  destruct prc; reflexivity.
Qed.

(** C5, as the claim states it, fails for the dodger that found no remote
    characteristic: its selection enters [DODGER_WAIT_SHOT], the state that
    waits for the shooter's choice, and nothing has been sent. *)
Lemma C5_enters_wait_without_send_counterexample :
  let d := setup ROLE_DODGER false false 0 in
  let click := mkInput (Some (mkTouch 150 200 true)) 900 900 in
  pRemoteCharacteristic d = false /\
  dodgerState d = DODGER_WAIT_INPUT /\
  dodgerState (fst (loop click d)) = DODGER_WAIT_SHOT /\
  dodgerChoice (fst (loop click d)) = 2 /\
  sends (snd (loop click d)) = [].
Proof. cbv zeta. repeat split. Qed.

(** C5, amended.  A callback is an event between two passes of [loop], and
    the messages carry no round number, so rounds are counted.

    In every execution of the shooter from [setup], at every point, the
    selections it has taken (the passes of [loop] that resolve a round) are
    at most as many as the choices of the dodger that [onWrite] has
    received: its k-th selection is never taken before the k-th choice has
    arrived.  Its notifications are at most as many as the selections
    taken.

    In every execution of the dodger from [setup], every pass that enters
    [DODGER_WAIT_SHOT], the state that reads the shooter's choice, holds a
    barrel as the dodger's choice; the values written to the shooter are
    these choices, one in each such pass and in that pass, when [setup]
    found the remote characteristic, and none at all when it did not; and
    the passes that read the shooter's choice are at most as many as those
    that entered [DODGER_WAIT_SHOT] before.  While the dodger waits for its
    own selection, a pass of [loop] reads nothing the shooter has
    notified.

    Hence, at a moment at which the shooter has received no more choices
    than the dodger has written, the shooter has taken no more selections
    than the dodger has written, and committed, choices. *)
Theorem C5_dodger_commits_first
    (connected found : bool) (tS tD : Z) (esS esD : list Event)
    (d : Globals) (inp : LoopInput) (v : Z) (b : bool) :
  deviceRole d = ROLE_DODGER -> dodgerState d = DODGER_WAIT_INPUT ->
  let s0 := setup ROLE_SHOOTER connected found tS in
  let d0 := setup ROLE_DODGER connected found tD in
  (countEvents resolvesRound s0 esS <= countEvents deliversChoice s0 esS)%nat /\
  (List.length (sends (snd (run s0 esS))) <= countEvents resolvesRound s0 esS)%nat /\
  Forall (fun c => 1 <= c <= 3) (choicesCommitted d0 esD) /\
  sends (snd (run d0 esD)) =
    (if found
     then map (fun c => WriteValue (sprintf_d c)) (choicesCommitted d0 esD)
     else []) /\
  (countEvents resolvesRound d0 esD <= List.length (choicesCommitted d0 esD))%nat /\
  loop inp (set_receivedShooterChoice v (set_notificationReceived b d)) =
    (set_receivedShooterChoice v (set_notificationReceived b (fst (loop inp d))),
     snd (loop inp d)) /\
  ((countEvents deliversChoice s0 esS <= List.length (sends (snd (run d0 esD))))%nat ->
   (countEvents resolvesRound s0 esS <= List.length (sends (snd (run d0 esD))))%nat /\
   (List.length (sends (snd (run d0 esD))) <= List.length (choicesCommitted d0 esD))%nat).
Proof.
  intros Hrole Hstate s0 d0.
  assert (Hs : deviceRole s0 = ROLE_SHOOTER) by reflexivity.
  assert (Hd : deviceRole d0 = ROLE_DODGER) by reflexivity.
  destruct (shooter_acts_on_credit esS s0 Hs) as [HS HS2].
  destruct (dodger_commits esD d0 Hd) as (HD1 & HD2 & HD3).
  change (shooterCredit s0) with 0%nat in HS.
  change (dodgerCredit d0) with 0%nat in HD3.
  change (pRemoteCharacteristic d0) with found in HD2.
  split; [ lia | ]. split; [ exact HS2 | ].
  split; [ exact HD1 | ]. split; [ exact HD2 | ]. split; [ lia | ].
  split; [ now apply dodger_selection_blind | ].
  intros Hlink. split; [ lia | exact (dodger_writes_after_commit esD d0 Hd) ].
Qed.

Lemma C5_dodger_commits_first_witness :
  (countEvents resolvesRound (setup ROLE_SHOOTER true true 0) (shooter_round 0) <=
   countEvents deliversChoice (setup ROLE_SHOOTER true true 0) (shooter_round 0))%nat /\
  (List.length (sends (snd (run (setup ROLE_SHOOTER true true 0) (shooter_round 0)))) <=
   countEvents resolvesRound (setup ROLE_SHOOTER true true 0) (shooter_round 0))%nat /\
  Forall (fun c => 1 <= c <= 3)
    (choicesCommitted (setup ROLE_DODGER true true 0) (dodger_round 0 "2")) /\
  sends (snd (run (setup ROLE_DODGER true true 0) (dodger_round 0 "2"))) =
    map (fun c => WriteValue (sprintf_d c))
      (choicesCommitted (setup ROLE_DODGER true true 0) (dodger_round 0 "2")) /\
  (countEvents resolvesRound (setup ROLE_DODGER true true 0) (dodger_round 0 "2") <=
   List.length (choicesCommitted (setup ROLE_DODGER true true 0) (dodger_round 0 "2")))%nat /\
  loop (mkInput (Some (mkTouch 150 200 true)) 900 900)
    (set_receivedShooterChoice 3
       (set_notificationReceived true (setup ROLE_DODGER true true 0))) =
    (set_receivedShooterChoice 3
       (set_notificationReceived true
          (fst (loop (mkInput (Some (mkTouch 150 200 true)) 900 900)
                  (setup ROLE_DODGER true true 0)))),
     snd (loop (mkInput (Some (mkTouch 150 200 true)) 900 900)
            (setup ROLE_DODGER true true 0))) /\
  (countEvents resolvesRound (setup ROLE_SHOOTER true true 0) (shooter_round 0) <=
   List.length (sends (snd (run (setup ROLE_DODGER true true 0) (dodger_round 0 "2")))))%nat /\
  (List.length (sends (snd (run (setup ROLE_DODGER true true 0) (dodger_round 0 "2")))) <=
   List.length (choicesCommitted (setup ROLE_DODGER true true 0) (dodger_round 0 "2")))%nat.
Proof.
  destruct (C5_dodger_commits_first true true 0 0 (shooter_round 0) (dodger_round 0 "2")
              (setup ROLE_DODGER true true 0)
              (mkInput (Some (mkTouch 150 200 true)) 900 900) 3 true
              eq_refl eq_refl)
    as (H1 & H2 & H3 & H4 & H5 & H6 & Hlink).
  destruct (Hlink ltac:(vm_compute; apply le_n)) as [H7 H8].
  exact (conj H1 (conj H2 (conj H3 (conj H4 (conj H5 (conj H6 (conj H7 H8))))))).
Defined.

(** The execution of the witness: one selection against one choice on the
    shooter; one choice committed, written and answered on the dodger. *)
Example one_round_counts :
  countEvents resolvesRound (setup ROLE_SHOOTER true true 0) (shooter_round 0) = 1%nat /\
  sends (snd (run (setup ROLE_SHOOTER true true 0) (shooter_round 0))) = [Notify "2"] /\
  countEvents deliversChoice (setup ROLE_SHOOTER true true 0) (shooter_round 0) = 1%nat /\
  choicesCommitted (setup ROLE_DODGER true true 0) (dodger_round 0 "2") = [2] /\
  sends (snd (run (setup ROLE_DODGER true true 0) (dodger_round 0 "2"))) = [WriteValue "2"] /\
  countEvents resolvesRound (setup ROLE_DODGER true true 0) (dodger_round 0 "2") = 1%nat.
Proof. repeat split; vm_compute; reflexivity. Qed.

(** ** The two revisions *)

(** Away from the rim of the restart button, a pass of the second revision
    is the pass of the first on the same touch taken as a click: all that is
    proved of [loop] for every input holds of the second revision. *)
Lemma revision2_loop (inp : LoopInput) (g : Globals) :
  atGameOver g = false \/ onRestartRim inp = false ->
  Revision2.loop inp g = loop (clicked inp) g.
Proof.
  unfold atGameOver, onRestartRim, clicked, Revision2.loop, loop, debounced, restartHit.
  destruct g as [role sst dst rn go safe dch sch conn dir nrcv rsc prc ltt].
  cbn [deviceRole shooterState dodgerState touch millis_test millis_store lastTouchTime].
  destruct (touch inp) as [pos | ]; cbn [option_map wasClicked x y];
    destruct role; [ | destruct sst | destruct dst | | destruct sst | destruct dst ];
    try reflexivity; intros H.
  all: rewrite Z.leb_antisym;
    destruct (wrap_ulong (millis_test inp - ltt) <? touchDebounce); cbn [negb];
    try reflexivity.
  all: destruct H as [H | H]; try discriminate.
  all: apply negb_false_iff, eqb_prop in H; rewrite H; reflexivity.
Qed.

(** On the rim the two revisions differ: the second restarts, the first
    does not. *)
Example revision2_restart_rim :
  let inp := mkInput (Some (mkTouch 100 120 true)) 5000 5000 in
  onRestartRim inp = true /\
  shooterState (fst (Revision2.loop inp shooter_game_over)) = SHOOTER_WAIT_DODGER /\
  shooterState (fst (loop inp shooter_game_over)) = SHOOTER_GAME_OVER.
Proof. cbv zeta. repeat split. Qed.

